(** * go-paramfetch: fetch-and-verify of proof parameter files

    A shallow embedding of [paramfetch.go] (package [build]): the integrity
    check [checkFile], the resumable downloader [doFetch], the per-entry
    goroutine started by [maybeFetchAsync], and the orchestration in
    [GetParams] and [wait].

    The program talks to the operating system, the network and a logger.
    These are modelled by an explicit [State] that is threaded through a
    small state monad [M]; every call that leaves the program (environment
    lookup, file-system call, HTTP round trip, log line, mutex operation) is
    also appended to [trace], so that statements such as "no request is
    issued" are statements about the events a computation adds.

    Goroutines are modelled by an interleaving semantics: each goroutine is a
    small state machine whose transitions are the blocks of the goroutine's
    body between two synchronisation points, and a schedule picks which
    goroutine moves next. *)

From Stdlib Require Import Strings.Byte Strings.Ascii.
From stdpp Require Import gmap strings list pretty.

Open Scope string_scope.

(** ** Byte strings and [encoding/hex] *)

#[global] Instance byte_eq_dec : EqDecision byte := Byte.byte_eq_dec.

Definition hextable : string := "0123456789abcdef".

(** [hextable[i]]; the index is always below 16 where it is used. *)
Definition hexdigit (i : N) : ascii :=
  default "0"%char (String.get (N.to_nat i) hextable).

(** [hex.EncodeToString]: for every byte [v] the two characters
    [hextable[v>>4]] and [hextable[v&0x0f]]. *)
Fixpoint hex_EncodeToString (src : list byte) : string :=
  match src with
  | [] => ""
  | v :: rest =>
      String (hexdigit (N.shiftr (Byte.to_N v) 4))
        (String (hexdigit (N.land (Byte.to_N v) 15))
           (hex_EncodeToString rest))
  end.

(** The characters [0-9a-f]. *)
Definition is_lower_hex (c : ascii) : bool :=
  let n := N_of_ascii c in
  ((48 <=? n) && (n <=? 57) || (97 <=? n) && (n <=? 102))%N.

Fixpoint all_chars (p : ascii → bool) (s : string) : bool :=
  match s with
  | EmptyString => true
  | String c s' => p c && all_chars p s'
  end.

(** [strings.HasSuffix]:
    [len(s) >= len(suffix) && s[len(s)-len(suffix):] == suffix]. *)
Definition strings_HasSuffix (s suffix : string) : bool :=
  (String.length suffix <=? String.length s)%nat
  && String.eqb
       (String.substring (String.length s - String.length suffix)
          (String.length suffix) s)
       suffix.

(** [strconv.FormatInt(n, 10)]. *)
Definition strconv_FormatInt (n : Z) : string := pretty n.

(** ** Errors *)

Inductive errno := ENOENT | EEXIST | EACCES | EISDIR | EIO | ENOSPC | EPERM.

#[global] Instance errno_eq_dec : EqDecision errno.
Proof. solve_decision. Defined.

Definition errno_text (e : errno) : string :=
  match e with
  | ENOENT => "no such file or directory"
  | EEXIST => "file exists"
  | EACCES => "permission denied"
  | EISDIR => "is a directory"
  | EIO => "input/output error"
  | ENOSPC => "no space left on device"
  | EPERM => "operation not permitted"
  end.

(** Go error values as the program builds or receives them:
    [*os.PathError] from the [os] package, a plain message
    ([xerrors.Errorf] without [%w], transport errors), the wrapper that
    [xerrors.Errorf("...: %w", ..., err)] returns, and the combined error of
    [multierr.Combine]. *)
#[warnings="-register-all"]
Inductive error :=
| PathError (op path : string) (e : errno)
| errorString (msg : string)
| wrapError (msg : string) (err : error)
| multiError (errors : list error).

(** [err.Error()]. *)
Fixpoint Error (err : error) : string :=
  match err with
  | PathError op path e => op +:+ " " +:+ path +:+ ": " +:+ errno_text e
  | errorString msg => msg
  | wrapError msg inner => msg +:+ ": " +:+ Error inner
  | multiError errors =>
      (fix join (l : list error) : string :=
         match l with
         | [] => ""
         | [e] => Error e
         | e :: l' => Error e +:+ "; " +:+ join l'
         end) errors
  end.

(** [os.IsNotExist] and [os.IsExist] look at the errno under a
    [*os.PathError]; they do not look through [xerrors] wrappers, and both
    are false on [nil]. *)
Definition os_IsNotExist (err : option error) : bool :=
  match err with
  | Some (PathError _ _ ENOENT) => true
  | _ => false
  end.

Definition os_IsExist (err : option error) : bool :=
  match err with
  | Some (PathError _ _ EEXIST) => true
  | _ => false
  end.

(** [multierr.Combine] on a slice without [nil] entries. *)
Definition multierr_Combine (errors : list error) : option error :=
  match errors with
  | [] => None
  | [e] => Some e
  | _ => Some (multiError errors)
  end.

(** ** Data of the program *)

Definition gateway : string := "https://proofs.filecoin.io/ipfs/".
Definition paramdir : string := "/data/lotus/folder/filecoin-proof-parameters".
Definition dirEnv : string := "FIL_PROOFS_PARAMETER_CACHE".

(** [type paramFile struct]; [SectorSize] is a [uint64], never used in
    arithmetic, only compared. *)
Record paramFile := {
  Cid : string;
  Digest : string;
  SectorSize : N
}.

(** [type fetch struct]: the wait-group counter, whether [fetchLk] is held,
    and the collected errors. *)
Record fetch := {
  wg : nat;
  fetchLk : bool;
  errs : list error
}.

(** ** The environment: file system, network, logger *)

Inductive syscall :=
  SysMkdir | SysOpen | SysRead | SysOpenFile | SysStat | SysWrite | SysRemove.

#[global] Instance syscall_eq_dec : EqDecision syscall.
Proof. solve_decision. Defined.

Record request := {
  req_method : string;
  req_url : string;
  req_header : list (string * string);
  req_close : bool
}.

(** An HTTP response: the declared [ContentLength], the bytes the body
    delivers, and the error (if any) with which the body ends instead of a
    clean end of stream. The status code is not part of the model: the
    program never reads it. *)
Record response := {
  ContentLength : Z;
  body : list byte;
  body_err : option error
}.

Inductive event :=
| EvGetenv (key : string)
| EvMkdir (path : string)
| EvOpen (path : string)
| EvRead (path : string)
| EvOpenFile (path : string)
| EvStat (path : string)
| EvWrite (path : string) (data : list byte)
| EvRemove (path : string)
| EvHttpDo (req : request)
| EvBar (total current : Z)
| EvLogWarn (msg : string)
| EvLogInfo (msg : string)
| EvGateLock
| EvGateUnlock.

(** The whole state a run of the program can read or change.
    [faults] injects failures of system calls: a call [c] on [path] fails
    with [e] when [faults c path = Some e], whatever the file system holds.
    [transport] is what [http.DefaultClient.Do] answers. [checked] is the
    package-level verification cache, [this] the [fetch] value of the
    running [GetParams] call. *)
Record State := {
  environ : gmap string string;
  files : gmap string (list byte);
  faults : syscall → string → option errno;
  transport : request → error + response;
  checked : gset string;
  this : fetch;
  trace : list event
}.

Definition set_files (f : gmap string (list byte)) (s : State) : State :=
  {| environ := environ s; files := f; faults := faults s;
     transport := transport s; checked := checked s; this := this s;
     trace := trace s |}.

Definition set_checked (c : gset string) (s : State) : State :=
  {| environ := environ s; files := files s; faults := faults s;
     transport := transport s; checked := c; this := this s;
     trace := trace s |}.

Definition set_this (f : fetch) (s : State) : State :=
  {| environ := environ s; files := files s; faults := faults s;
     transport := transport s; checked := checked s; this := f;
     trace := trace s |}.

Definition set_trace (t : list event) (s : State) : State :=
  {| environ := environ s; files := files s; faults := faults s;
     transport := transport s; checked := checked s; this := this s;
     trace := t |}.

(** ** The state monad *)

Definition M (A : Type) : Type := State → A * State.

#[global] Instance M_ret : MRet M := λ A a s, (a, s).
#[global] Instance M_bind : MBind M :=
  λ A B f m s, let '(a, s') := m s in f a s'.

Definition emit (ev : event) : M unit :=
  λ s, (tt, set_trace (trace s ++ [ev]) s).

(** A call to the outside: the event is recorded, then the call acts on the
    state. *)
Definition call {A} (ev : event) (f : State → A * State) : M A :=
  emit ev;; f.

(** ** Primitives *)

(** [os.Getenv]: the empty string when the variable is not set. *)
Definition os_Getenv (key : string) : M string :=
  call (EvGetenv key) (λ s,
    (default "" (environ s !! key), s)).

Definition log_Warn (msg : string) : M unit := emit (EvLogWarn msg).
Definition log_Infof (msg : string) : M unit := emit (EvLogInfo msg).

(** [os.Mkdir]; directories are not part of [files], so the outcome comes
    from [faults] alone ([EEXIST] when the directory is there already). *)
Definition os_Mkdir (path : string) : M (option error) :=
  call (EvMkdir path) (λ s,
    (PathError "mkdir" path <$> faults s SysMkdir path, s)).

(** [os.Open]: the handle of an open file is its path. *)
Definition os_Open (path : string) : M (error + string) :=
  call (EvOpen path) (λ s,
    match faults s SysOpen path with
       | Some e => (inl (PathError "open" path e), s)
       | None =>
           match files s !! path with
           | None => (inl (PathError "open" path ENOENT), s)
           | Some _ => (inr path, s)
           end
       end).

(** Reading an open file to its end, as [io.Copy(h, f)] does. *)
Definition read_to_end (f : string) : M (error + list byte) :=
  call (EvRead f) (λ s,
    match faults s SysRead f with
       | Some e => (inl (PathError "read" f e), s)
       | None => (inr (default [] (files s !! f)), s)
       end).

(** [os.OpenFile(path, O_RDWR|O_CREATE|O_APPEND, 0666)]: an absent file is
    created empty; an existing one is left as it is. *)
Definition os_OpenFile_append (path : string) : M (error + string) :=
  call (EvOpenFile path) (λ s,
    match faults s SysOpenFile path with
       | Some e => (inl (PathError "open" path e), s)
       | None =>
           match files s !! path with
           | None => (inr path, set_files (<[path := []]> (files s)) s)
           | Some _ => (inr path, s)
           end
       end).

(** [f.Stat()], of which only [Size()] is used. *)
Definition file_Stat_Size (f : string) : M (error + Z) :=
  call (EvStat f) (λ s,
    match faults s SysStat f with
       | Some e => (inl (PathError "stat" f e), s)
       | None => (inr (Z.of_nat (length (default [] (files s !! f)))), s)
       end).

(** Writing to a file opened with [O_APPEND]: the data goes after the
    bytes that are there. *)
Definition file_Write (f : string) (data : list byte) : M (option error) :=
  call (EvWrite f data) (λ s,
    match faults s SysWrite f with
       | Some e => (Some (PathError "write" f e), s)
       | None =>
           (None,
            set_files (<[f := (default [] (files s !! f) ++ data)%list]> (files s)) s)
       end).

(** [io.Copy(outf, resp.Body)]: the bytes the body delivers are written;
    a write error ends the copy, otherwise the copy ends as the body does.
    An empty body causes no write at all. *)
Definition io_Copy_to_file (outf : string) (resp : response) : M (option error) :=
  match body resp with
  | [] => mret (body_err resp)
  | data =>
      werr ← file_Write outf data;
      match werr with
      | Some e => mret (Some e)
      | None => mret (body_err resp)
      end
  end.

(** [os.Remove]. *)
Definition os_Remove (path : string) : M (option error) :=
  call (EvRemove path) (λ s,
    match faults s SysRemove path with
       | Some e => (Some (PathError "remove" path e), s)
       | None =>
           match files s !! path with
           | None => (Some (PathError "remove" path ENOENT), s)
           | Some _ => (None, set_files (delete path (files s)) s)
           end
       end).

(** [http.DefaultClient.Do]. *)
Definition http_Do (req : request) : M (error + response) :=
  call (EvHttpDo req) (λ s,
    (transport s req, s)).

(** [_, ok := checked[path]] and [checked[path] = struct{}{}], each inside
    its own [checkedLk] critical section. *)
Definition checked_has (path : string) : M bool :=
  λ s, (bool_decide (path ∈ checked s), s).

Definition checked_add (path : string) : M unit :=
  λ s, (tt, set_checked ({[path]} ∪ checked s) s).

(** [ft.errs = append(ft.errs, err)]. *)
Definition errs_append (err : error) : M unit :=
  λ s, (tt, set_this {| wg := wg (this s); fetchLk := fetchLk (this s);
                        errs := (errs (this s) ++ [err])%list |} s).

(** [ft.wg.Add(1)] and [ft.wg.Done()]. *)
Definition wg_Add1 : M unit :=
  λ s, (tt, set_this {| wg := S (wg (this s)); fetchLk := fetchLk (this s);
                        errs := errs (this s) |} s).

Definition wg_Done : M unit :=
  λ s, (tt, set_this {| wg := pred (wg (this s)); fetchLk := fetchLk (this s);
                        errs := errs (this s) |} s).

(** [ft.fetchLk.Unlock()]. *)
Definition fetchLk_Unlock : M unit :=
  call EvGateUnlock (λ s,
    (tt, set_this {| wg := wg (this s); fetchLk := false;
                        errs := errs (this s) |} s)).

(** [ft.fetchLk.Lock()] when the mutex is free; a goroutine that finds it
    held is blocked and takes no step (see [goroutine_step]). *)
Definition fetchLk_Lock : M unit :=
  call EvGateLock (λ s,
    (tt, set_this {| wg := wg (this s); fetchLk := true;
                        errs := errs (this s) |} s)).

(** ** Goroutines and configurations *)

(** The goroutine of [maybeFetchAsync].

    The body of the goroutine is cut at its synchronisation points: the
    pre-download check (lines 83-91), the acquisition of [fetchLk] (93), the
    download (96-99) and the re-check with its clean-up (100-107). The
    deferred [fetchLk.Unlock()] and [wg.Done()] run where the body returns.
    The local variable [path] travels with the program counter. *)
Inductive pc :=
| Spawned
| AtGate (path : string)
| AtFetch (path : string)
| AtRecheck (path : string)
| Finished.

Record goroutine := {
  g_name : string;
  g_info : paramFile;
  g_pc : pc
}.

Record config := {
  st : State;
  goroutines : list goroutine
}.


(** ** Reading the state and the trace *)

(** [os.Getenv("TRUST_PARAMS") == "1"] *)
Definition trust_bypass (s : State) : bool :=
  String.eqb (default "" (environ s !! "TRUST_PARAMS")) "1".

(** What [getParamDir] returns. *)
Definition param_dir (s : State) : string :=
  if String.eqb (default "" (environ s !! dirEnv)) "" then paramdir
  else default "" (environ s !! dirEnv).

(** The gateway address [doFetch] uses. *)
Definition gateway_of (s : State) : string :=
  if String.eqb (default "" (environ s !! "IPFS_GATEWAY")) "" then gateway
  else default "" (environ s !! "IPFS_GATEWAY").

(** What opening [path] and reading it to the end yields. *)
Definition read_file (path : string) (s : State) : error + list byte :=
  ((r ← os_Open path;
    match r with
    | inl err => mret (inl err)
    | inr f => read_to_end f
    end) s).1.

(** The size of the file at [path] as [Stat] reports it after
    [os_OpenFile_append]: an absent file has just been created empty. *)
Definition size_of (path : string) (s : State) : Z :=
  Z.of_nat (length (default [] (files s !! path))).

(** The events that [s'] has and [s] has not yet. *)
Definition new_events (s s' : State) : list event :=
  drop (length (trace s)) (trace s').

(** A [GET] for [url] that asks for the bytes from [offset] on. *)
Definition range_request (url : string) (offset : Z) : request :=
  {| req_method := "GET"; req_url := url;
     req_header := [("Range", "bytes=" +:+ strconv_FormatInt offset +:+ "-")];
     req_close := true |}.

Definition requests_in (evs : list event) : list request :=
  omap (λ ev, match ev with EvHttpDo req => Some req | _ => None end) evs.

Definition is_gate_lock (ev : event) : bool :=
  match ev with EvGateLock => true | _ => false end.

Definition is_remove (ev : event) : bool :=
  match ev with EvRemove _ => true | _ => false end.

Definition is_log (ev : event) : bool :=
  match ev with EvLogWarn _ | EvLogInfo _ => true | _ => false end.

(** Every call of [checkFile] begins with [os.Getenv("TRUST_PARAMS")], every
    call of [doFetch] with [os.Getenv("IPFS_GATEWAY")], and nothing else
    reads these variables: the two events mark the calls in a trace. *)
Definition is_checkFile_call (ev : event) : bool :=
  match ev with EvGetenv key => String.eqb key "TRUST_PARAMS" | _ => false end.

Definition is_doFetch_call (ev : event) : bool :=
  match ev with EvGetenv key => String.eqb key "IPFS_GATEWAY" | _ => false end.

Definition count (p : event → bool) (evs : list event) : nat :=
  length (List.filter p evs).

(** Goroutines inside the section guarded by [fetchLk], and those inside
    [doFetch]. *)
Definition holds_gate (p : pc) : bool :=
  match p with AtFetch _ | AtRecheck _ => true | _ => false end.

Definition downloading (p : pc) : bool :=
  match p with AtFetch _ => true | _ => false end.

Definition gate_holders (gs : list goroutine) : nat :=
  length (List.filter (λ g, holds_gate (g_pc g)) gs).

Definition in_flight (gs : list goroutine) : nat :=
  length (List.filter (λ g, downloading (g_pc g)) gs).

(** The entries for which the loop of [GetParams] starts a goroutine. *)
Definition in_scope (storageSize : N) (entry : string * paramFile) : bool :=
  negb (negb (storageSize =? SectorSize entry.2)%N
        && strings_HasSuffix entry.1 ".params").

Definition spawned_for (entry : string * paramFile) : goroutine :=
  {| g_name := entry.1; g_info := entry.2; g_pc := Spawned |}.

Definition at_pc (g : goroutine) (p : pc) : goroutine :=
  {| g_name := g_name g; g_info := g_info g; g_pc := p |}.

Definition is_upper (c : ascii) : bool :=
  let n := N_of_ascii c in ((65 <=? n) && (n <=? 90))%N.

Fixpoint some_char (p : ascii → bool) (s : string) : bool :=
  match s with
  | EmptyString => false
  | String c s' => p c || some_char p s'
  end.

(** ** Sample inputs

    Concrete library functions and states on which the model can be run.
    [pad_512] stands in for the digest function: the properties below hold
    for every function with a 64-byte result, and closed examples need one
    that computes. *)

Definition pad_512 (data : list byte) : list byte :=
  take 64 (data ++ replicate 64 x00)%list.

(** [filepath.Join] on a directory and a plain file name. *)
Definition join_plain (dir name : string) : string := dir +:+ "/" +:+ name.

(** [url.Parse] followed by [String()] on a URL that needs no escaping. *)
Definition url_plain (url : string) : error + string := inr url.

Definition no_faults : syscall → string → option errno := λ _ _, None.

(** A network without a route to the gateway. *)
Definition offline : request → error + response :=
  λ _, inl (errorString "dial tcp: connect: connection refused").

(** A gateway that answers a request for [url] with [content]. *)
Definition serve (url : string) (content : list byte) : request → error + response :=
  λ req,
    if String.eqb (req_url req) url
    then inr {| ContentLength := Z.of_nat (length content);
                body := content; body_err := None |}
    else inl (errorString "unexpected request").

Definition sample_state (env : gmap string string)
    (fs : gmap string (list byte)) (flt : syscall → string → option errno)
    (net : request → error + response) (cache : gset string) : State :=
  {| environ := env; files := fs; faults := flt; transport := net;
     checked := cache;
     this := {| wg := 1; fetchLk := false; errs := [] |}; trace := [] |}.

Definition vk_path : string :=
  "/data/lotus/folder/filecoin-proof-parameters/a.vk".

Definition vk_content : list byte := [x61; x62; x63].

Definition vk_digest : string :=
  Eval vm_compute in hex_EncodeToString (take 16 (pad_512 vk_content)).

Definition vk_info : paramFile :=
  {| Cid := "Qm1"; Digest := vk_digest; SectorSize := 0 |}.

(** The same entry with its digest written in upper case. *)
Definition vk_info_upper : paramFile :=
  {| Cid := "Qm1"; Digest := "61626300000000000000000000000ABC";
     SectorSize := 0 |}.

Definition params_info : paramFile :=
  {| Cid := "Qm2"; Digest := vk_digest; SectorSize := 2048 |}.

Definition sample_manifest : gmap string paramFile :=
  {[ "a.vk" := vk_info; "b.params" := params_info ]}.

(** The manifest as a JSON document; [q] is the quotation mark. *)
Definition sample_manifest_bytes : list byte :=
  let q := String (ascii_of_nat 34) "" in
  let field (k v : string) := q +:+ k +:+ q +:+ ":" +:+ v in
  let str (v : string) := q +:+ v +:+ q in
  let entry (name cid digest size : string) :=
    field name ("{" +:+ field "cid" (str cid) +:+ ","
                +:+ field "digest" (str digest) +:+ ","
                +:+ field "sector_size" size +:+ "}") in
  String.list_byte_of_string
    ("{" +:+ entry "a.vk" "Qm1" vk_digest "0" +:+ ","
     +:+ entry "b.params" "Qm2" vk_digest "2048" +:+ "}").

(** [json.Unmarshal] for the one document [sample_manifest_bytes]. *)
Definition unmarshal_sample (data : list byte) : error + gmap string paramFile :=
  if bool_decide (data = sample_manifest_bytes) then inr sample_manifest
  else inl (errorString "unexpected end of JSON input").

Definition vk_goroutine (p : pc) : goroutine :=
  {| g_name := "a.vk"; g_info := vk_info; g_pc := p |}.

(** The file is in place and correct; no network. *)
Definition st_present : State :=
  sample_state ∅ {[ vk_path := vk_content ]} no_faults offline ∅.

(** The file is absent and the gateway serves the right content. *)
Definition st_absent : State :=
  sample_state ∅ ∅ no_faults (serve (gateway +:+ "Qm1") vk_content) ∅.

(** The file is in place but cannot be read. *)
Definition st_unreadable : State :=
  sample_state ∅ {[ vk_path := vk_content ]}
    (λ c p, if bool_decide (c = SysOpen) then Some EACCES else None)
    (serve (gateway +:+ "Qm1") vk_content) ∅.

(** The file is absent and there is no network. *)
Definition st_offline : State :=
  sample_state ∅ ∅ no_faults offline ∅.

(** A download of wrong content has just ended, in a directory from which
    nothing can be removed. *)
Definition st_corrupt : State :=
  sample_state ∅ {[ vk_path := [x78; x79; x7a] ]}
    (λ c p, if bool_decide (c = SysRemove) then Some EACCES else None)
    offline ∅.

(** The file cannot be opened for writing. *)
Definition st_readonly : State :=
  sample_state ∅ {[ vk_path := vk_content ]}
    (λ c p, if bool_decide (c = SysOpenFile) then Some EACCES else None)
    (serve (gateway +:+ "Qm1") vk_content) ∅.

(** A part of the file is in place; the gateway serves the rest. *)
Definition st_partial : State :=
  sample_state ∅ {[ vk_path := [x61] ]} no_faults
    (serve (gateway +:+ "Qm1") [x62; x63]) ∅.

(** The file is absent and the gateway serves other content. *)
Definition st_wrong : State :=
  sample_state ∅ ∅ no_faults (serve (gateway +:+ "Qm1") [x78; x79; x7a]) ∅.

(** A gateway address without a slash at its end. *)
Definition st_gateway : State :=
  sample_state {[ "IPFS_GATEWAY" := "http://127.0.0.1:8080/ipfs" ]}
    {[ vk_path := vk_content ]} no_faults
    (serve "http://127.0.0.1:8080/ipfsQm1" [x64; x65]) ∅.

(** ** The program *)

Section Program.

(** Library functions the program calls and whose code is not part of the
    repository. [blake2b_512 data] is the digest that [blake2b.New512()]
    yields after [data] has been written to it; [filepath_Join] is
    [filepath.Join]; [url_Parse s] is [url.Parse(s)] followed by [String()]
    on the result; [json_Unmarshal] is [json.Unmarshal] into a
    [map[string]paramFile]. *)
Variable blake2b_512 : list byte → list byte.
Variable filepath_Join : string → string → string.
Variable url_Parse : string → error + string.
Variable json_Unmarshal : list byte → error + gmap string paramFile.

(** A BLAKE2b-512 digest has 64 bytes. *)
Hypothesis blake2b_512_Size : ∀ data, length (blake2b_512 data) = 64%nat.

Definition getParamDir : M string :=
  v ← os_Getenv dirEnv;
  if String.eqb v "" then mret paramdir else os_Getenv dirEnv.

(** [strSum] of [checkFile]: [hex.EncodeToString(sum[:16])]. *)
Definition strSum_of (data : list byte) : string :=
  hex_EncodeToString (take 16 (blake2b_512 data)).

Definition mismatch_error (path strSum digest : string) : error :=
  errorString ("checksum mismatch in param file " +:+ path +:+ ", "
               +:+ strSum +:+ " != " +:+ digest).

(** [func (ft *fetch) checkFile(path string, info paramFile) error] *)
Definition checkFile (path : string) (info : paramFile) : M (option error) :=
  trust ← os_Getenv "TRUST_PARAMS";
  if String.eqb trust "1" then
    log_Warn "Assuming parameter files are ok. DO NOT USE IN PRODUCTION";;
    mret None
  else
    ok ← checked_has path;
    if ok : bool then mret None
    else
      r ← os_Open path;
      match r with
      | inl err => mret (Some err)
      | inr f =>
          r ← read_to_end f;
          match r with
          | inl err => mret (Some err)
          | inr data =>
              let strSum := strSum_of data in
              if String.eqb strSum (Digest info) then
                log_Infof ("Parameter file " +:+ path +:+ " is ok");;
                checked_add path;;
                mret None
              else mret (Some (mismatch_error path strSum (Digest info)))
          end
      end.

(** [http.NewRequestWithContext(ctx, "GET", url, nil)]: the method is
    valid and the context is not nil, so the only failure is the URL. The
    context shows in the model through [transport]: a cancelled request is
    one that [transport] answers with an error or whose body ends in one. *)
Definition http_NewRequest (method url : string) : error + request :=
  match url_Parse url with
  | inl err => inl err
  | inr u => inr {| req_method := method; req_url := u;
                    req_header := []; req_close := false |}
  end.

(** [func doFetch(ctx context.Context, out string, info paramFile) error] *)
Definition doFetch (out : string) (info : paramFile) : M (option error) :=
  gw ← os_Getenv "IPFS_GATEWAY";
  let gw := if String.eqb gw "" then gateway else gw in
  log_Infof ("Fetching " +:+ out +:+ " from " +:+ gw);;
  r ← os_OpenFile_append out;
  match r with
  | inl err => mret (Some err)
  | inr outf =>
      r ← file_Stat_Size outf;
      match r with
      | inl err => mret (Some err)
      | inr size =>
          let header :=
            [("Range", "bytes=" +:+ strconv_FormatInt size +:+ "-")] in
          match url_Parse (gw +:+ Cid info) with
          | inl err => mret (Some err)
          | inr url =>
              log_Infof ("GET " +:+ url);;
              match http_NewRequest "GET" url with
              | inl err => mret (Some err)
              | inr req =>
                  let req := {| req_method := req_method req;
                                req_url := req_url req;
                                req_header := header;
                                req_close := true |} in
                  r ← http_Do req;
                  match r with
                  | inl err => mret (Some err)
                  | inr resp =>
                      emit (EvBar (size + ContentLength resp) size);;
                      io_Copy_to_file outf resp
                  end
              end
          end
      end
  end.

(** *** The goroutine of [maybeFetchAsync] *)

Definition warn_text (err : option error) : string :=
  from_option Error "<nil>" err.

Definition goroutine_check (name : string) (info : paramFile) : M pc :=
  dir ← getParamDir;
  let path := filepath_Join dir name in
  err ← checkFile path info;
  (if negb (os_IsNotExist err) && bool_decide (err ≠ None)
   then log_Warn (warn_text err) else mret tt);;
  match err with
  | None => wg_Done;; mret Finished
  | Some _ => mret (AtGate path)
  end.

Definition goroutine_lock (path : string) : M pc :=
  fetchLk_Lock;; mret (AtFetch path).

Definition goroutine_fetch (path : string) (info : paramFile) : M pc :=
  err ← doFetch path info;
  match err with
  | Some e =>
      errs_append (wrapError ("fetching file " +:+ path +:+ " failed") e);;
      fetchLk_Unlock;; wg_Done;; mret Finished
  | None => mret (AtRecheck path)
  end.

Definition goroutine_recheck (path : string) (info : paramFile) : M pc :=
  err ← checkFile path info;
  match err with
  | Some e =>
      errs_append (wrapError ("checking file " +:+ path +:+ " failed") e);;
      rerr ← os_Remove path;
      match rerr with
      | Some e' =>
          errs_append (wrapError ("remove file " +:+ path +:+ " failed") e')
      | None => mret tt
      end
  | None => mret tt
  end;;
  fetchLk_Unlock;; wg_Done;; mret Finished.

(** One transition of a goroutine; [None] when it cannot move: it has
    returned, or it waits for [fetchLk] while another goroutine holds it. *)
Definition goroutine_step (g : goroutine) (s : State) : option (goroutine * State) :=
  let continue_with (m : M pc) :=
    let '(pc', s') := m s in Some (at_pc g pc', s') in
  match g_pc g with
  | Spawned => continue_with (goroutine_check (g_name g) (g_info g))
  | AtGate path =>
      if fetchLk (this s) then None else continue_with (goroutine_lock path)
  | AtFetch path => continue_with (goroutine_fetch path (g_info g))
  | AtRecheck path => continue_with (goroutine_recheck path (g_info g))
  | Finished => None
  end.

(** *** The running system *)

(** The scheduler lets goroutine [i] move; a choice that cannot move
    leaves the configuration as it is. *)
Definition step (i : nat) (c : config) : option config :=
  g ← goroutines c !! i;
  '(g', s') ← goroutine_step g (st c);
  Some {| st := s'; goroutines := <[i := g']> (goroutines c) |}.

Definition run (schedule : list nat) (c : config) : config :=
  foldl (λ c i, default c (step i c)) c schedule.

(** *** [GetParams] *)

(** [func (ft *fetch) maybeFetchAsync]: [wg.Add(1)] and the [go]
    statement. *)
Definition maybeFetchAsync (name : string) (info : paramFile) : M goroutine :=
  wg_Add1;; mret {| g_name := name; g_info := info; g_pc := Spawned |}.

(** The [for name, info := range params] loop over the entries in the
    order in which the runtime hands them out. *)
Fixpoint range_params (storageSize : N) (entries : list (string * paramFile))
  : M (list goroutine) :=
  match entries with
  | [] => mret []
  | (name, info) :: rest =>
      if negb (storageSize =? SectorSize info)%N
         && strings_HasSuffix name ".params"
      then range_params storageSize rest
      else
        g ← maybeFetchAsync name info;
        gs ← range_params storageSize rest;
        mret (g :: gs)
  end.

(** [ft := &fetch{}] *)
Definition new_fetch : M unit :=
  λ s, (tt, set_this {| wg := 0; fetchLk := false; errs := [] |} s).

(** [GetParams] from [json.Unmarshal] to the end of the loop. *)
Definition GetParams_spawn (paramBytes : list byte) (storageSize : N)
  : M (error + list goroutine) :=
  match json_Unmarshal paramBytes with
  | inl err => mret (inl err)
  | inr params =>
      new_fetch;;
      gs ← range_params storageSize (map_to_list params);
      mret (inr gs)
  end.

(** [GetParams] up to the call of [ft.wait]: an early error, or the
    goroutines it has started. The goroutines take their steps afterwards
    (see [run]); none of their steps is read by the loop. *)
Definition GetParams (paramBytes : list byte) (storageSize : N)
  : M (error + list goroutine) :=
  dir ← getParamDir;
  err ← os_Mkdir dir;
  match err with
  | Some e =>
      if negb (os_IsExist err) then mret (inl e)
      else GetParams_spawn paramBytes storageSize
  | None => GetParams_spawn paramBytes storageSize
  end.

(** [func (ft *fetch) wait]: which case of the [select] fired. *)
Inductive woken := CtxDone | WaitChan.

(** [wait] returns through [WaitChan] only once the wait group is at zero,
    and through [CtxDone] only when the context is done; either way the
    result is [multierr.Combine(ft.errs...)] of the errors collected so
    far. *)
Definition wait (ctx_done : bool) (by_case : woken) : State → option (option error * State) :=
  λ s,
    match by_case with
    | CtxDone =>
        if ctx_done
        then Some ((log_Infof "context closed... shutting down";;
                    mret (multierr_Combine (errs (this s)))) s)
        else None
    | WaitChan =>
        if (wg (this s) =? 0)%nat
        then Some ((log_Infof "parameter and key-fetching complete";;
                    mret (multierr_Combine (errs (this s)))) s)
        else None
    end.

(** ** Properties *)

(** *** [encoding/hex] *)

Lemma hex_byte_lower (v : byte) :
  is_lower_hex (hexdigit (N.shiftr (Byte.to_N v) 4)) = true
  ∧ is_lower_hex (hexdigit (N.land (Byte.to_N v) 15)) = true.
Proof. destruct v; split; reflexivity. Qed.

Lemma hex_EncodeToString_length (src : list byte) :
  String.length (hex_EncodeToString src) = (2 * length src)%nat.
Proof. induction src as [|v rest IH]; simpl; [done | rewrite IH; lia]. Qed.

Lemma hex_EncodeToString_lower (src : list byte) :
  all_chars is_lower_hex (hex_EncodeToString src) = true.
Proof.
  induction src as [|v rest IH]; simpl; [done |].
  destruct (hex_byte_lower v) as [-> ->]. by rewrite IH.
Qed.

Lemma is_upper_not_lower_hex (c : ascii) :
  is_upper c = true → is_lower_hex c = false.
Proof.
  unfold is_upper, is_lower_hex. generalize (N_of_ascii c). intros n Hn.
  apply andb_true_iff in Hn as [H1 H2].
  apply N.leb_le in H1. apply N.leb_le in H2.
  apply orb_false_iff; split; apply andb_false_iff.
  - right. apply N.leb_gt. lia.
  - left. apply N.leb_gt. lia.
Qed.

Lemma some_upper_not_all_lower_hex (s : string) :
  some_char is_upper s = true → all_chars is_lower_hex s = false.
Proof.
  induction s as [|c s IH]; simpl; [done |].
  intros [Hc | Hs]%orb_true_iff.
  - by rewrite (is_upper_not_lower_hex c Hc).
  - rewrite (IH Hs). apply andb_false_r.
Qed.

(** The comparison string of [checkFile] has 32 characters, all in
    [0-9a-f]. *)
Lemma strSum_of_shape (data : list byte) :
  String.length (strSum_of data) = 32%nat
  ∧ all_chars is_lower_hex (strSum_of data) = true.
Proof.
  unfold strSum_of. split; [| apply hex_EncodeToString_lower].
  rewrite hex_EncodeToString_length, length_take, blake2b_512_Size. done.
Qed.

(** *** Unfolding the monad *)

#[local] Arguments String.append : simpl never.
#[local] Arguments strconv_FormatInt : simpl never.

Ltac unfold_prims :=
  unfold getParamDir, io_Copy_to_file;
  unfold os_Getenv, os_Mkdir, os_Open, read_to_end,
    os_OpenFile_append, file_Stat_Size, file_Write,
    os_Remove, http_Do, checked_has, checked_add, errs_append, wg_Add1,
    wg_Done, fetchLk_Unlock, fetchLk_Lock, log_Warn, log_Infof, call, emit,
    mbind, M_bind, mret, M_ret, set_trace, set_files, set_checked, set_this.

(** Uses the lookups recorded on the path. *)
Ltac use_lookups :=
  repeat match goal with
         | H : ?m !! ?k = _ |- context [?m !! ?k] => rewrite H
         end;
  rewrite ?lookup_insert_eq; simpl.

(** One case distinction of the computation in the goal, on the first
    scrutinee that contains no other case distinction; a hypothesis that
    settles the case is used instead. *)
Ltac path_step :=
  match goal with
  | |- context [match ?x with _ => _ end] =>
      lazymatch x with
      | context [match _ with _ => _ end] => fail
      | _ =>
          first
            [ match goal with H : x = _ |- _ => rewrite H end
            | let E := fresh "Hpath" in
              destruct x eqn:E; rewrite ?E in *; simpl in * ]
      end
  end; simpl; use_lookups.

(** Splits a computation of [M] in the goal into the paths it can take, on
    a state given by its fields. *)
Ltac by_paths s :=
  destruct s as [env fs flt net ck th tc]; simpl in *;
  unfold_prims; simpl; repeat path_step.

(** Brings a trace [((tc ++ [a]) ++ [b]) ++ ...] into the form
    [tc ++ [a; b; ...]]. *)
Ltac flat_trace := rewrite <- ?app_assoc; simpl.

Ltac close_path :=
  intros; use_lookups; simplify_eq; try done; try congruence.

(** *** [checkFile] *)

Lemma read_file_spec (path : string) (s : State) :
  read_file path s =
  match faults s SysOpen path with
  | Some e => inl (PathError "open" path e)
  | None =>
      match files s !! path with
      | None => inl (PathError "open" path ENOENT)
      | Some data =>
          match faults s SysRead path with
          | Some e => inl (PathError "read" path e)
          | None => inr data
          end
      end
  end.
Proof. unfold read_file. by_paths s; close_path. Qed.

(** What [checkFile] returns: ok under the trust bypass and for a cached
    path, otherwise the verdict on the content read. *)
Lemma checkFile_result (path : string) (info : paramFile) (s : State) :
  (checkFile path info s).1 =
  if trust_bypass s then None
  else if bool_decide (path ∈ checked s) then None
  else match read_file path s with
       | inl err => Some err
       | inr data =>
           if String.eqb (strSum_of data) (Digest info) then None
           else Some (mismatch_error path (strSum_of data) (Digest info))
       end.
Proof.
  rewrite read_file_spec. unfold checkFile, trust_bypass.
  by_paths s; close_path.
Qed.

(** [checkFile] touches the cache and the trace, nothing else. *)
Lemma checkFile_frame (path : string) (info : paramFile) (s : State) :
  let s' := (checkFile path info s).2 in
  environ s' = environ s ∧ files s' = files s ∧ faults s' = faults s
  ∧ transport s' = transport s ∧ this s' = this s.
Proof. unfold checkFile. by_paths s; close_path. Qed.

(** The cache after [checkFile]: as before, or with [path] added, and this
    only where the content read has the expected digest. *)
Lemma checkFile_checked (path : string) (info : paramFile) (s : State) :
  checked (checkFile path info s).2 =
  if trust_bypass s then checked s
  else if bool_decide (path ∈ checked s) then checked s
  else match read_file path s with
       | inl _ => checked s
       | inr data =>
           if String.eqb (strSum_of data) (Digest info)
           then {[path]} ∪ checked s else checked s
       end.
Proof.
  rewrite read_file_spec. unfold checkFile, trust_bypass.
  by_paths s; close_path.
Qed.

(** The events of one [checkFile] call: it starts with the one lookup of
    [TRUST_PARAMS]; there is no request, no gate operation, no removal and
    no call of [doFetch] among them; a call that returns an error logs
    nothing. *)
Lemma checkFile_trace (path : string) (info : paramFile) (s : State) :
  ∃ evs,
    trace (checkFile path info s).2 = (trace s ++ evs)%list
    ∧ requests_in evs = []
    ∧ count is_gate_lock evs = 0%nat
    ∧ count is_remove evs = 0%nat
    ∧ count is_checkFile_call evs = 1%nat
    ∧ count is_doFetch_call evs = 0%nat
    ∧ ((checkFile path info s).1 ≠ None → count is_log evs = 0%nat).
Proof.
  unfold checkFile. by_paths s; flat_trace;
    (eexists; split; [reflexivity | by repeat split]).
Qed.

(** The verdict of [checkFile] does not depend on the trace or on the
    [fetch] value. *)
Lemma checkFile_result_ext (path : string) (info : paramFile) (s1 s2 : State) :
  environ s1 = environ s2 → files s1 = files s2 → faults s1 = faults s2 →
  checked s1 = checked s2 →
  (checkFile path info s1).1 = (checkFile path info s2).1.
Proof.
  intros He Hf Hl Hc. rewrite !checkFile_result, !read_file_spec.
  unfold trust_bypass. by rewrite He, Hf, Hl, Hc.
Qed.

(** *** [doFetch] *)

Ltac doFetch_paths s :=
  unfold doFetch, http_NewRequest, gateway_of, size_of, range_request in *;
  by_paths s.

(** [doFetch] touches the file system and the trace, nothing else. *)
Lemma doFetch_frame (out : string) (info : paramFile) (s : State) :
  let s' := (doFetch out info s).2 in
  environ s' = environ s ∧ faults s' = faults s
  ∧ transport s' = transport s ∧ checked s' = checked s ∧ this s' = this s.
Proof. doFetch_paths s; close_path. Qed.

(** The events of one [doFetch] call: it starts with the one lookup of
    [IPFS_GATEWAY]; at most one request is among them, and no gate
    operation, no removal and no call of [checkFile]. *)
Lemma doFetch_trace (out : string) (info : paramFile) (s : State) :
  ∃ evs,
    trace (doFetch out info s).2 = (trace s ++ evs)%list
    ∧ (length (requests_in evs) ≤ 1)%nat
    ∧ count is_gate_lock evs = 0%nat
    ∧ count is_remove evs = 0%nat
    ∧ count is_checkFile_call evs = 0%nat
    ∧ count is_doFetch_call evs = 1%nat.
Proof.
  doFetch_paths s; flat_trace;
    (eexists; split; [reflexivity | repeat split; simpl; lia]).
Qed.

(** Files other than [out] are left alone, and [out] is never removed. *)
Lemma doFetch_other_files (out : string) (info : paramFile) (s : State) (p : string) :
  p ≠ out → files (doFetch out info s).2 !! p = files s !! p.
Proof.
  doFetch_paths s; close_path;
    by rewrite ?lookup_insert_ne by done.
Qed.

Lemma new_events_app (s s' : State) (evs : list event) :
  trace s' = (trace s ++ evs)%list → new_events s s' = evs.
Proof. unfold new_events. intros ->. apply drop_app_length. Qed.

Ltac doFetch_request_paths s :=
  unfold new_events; doFetch_paths s; flat_trace;
  rewrite ?drop_app_length; close_path.

(** A call that cannot open the file returns the error of [os.OpenFile];
    it issues no request and changes no file. *)
Lemma doFetch_open_error (out : string) (info : paramFile) (s : State) (e : errno) :
  faults s SysOpenFile out = Some e →
  (doFetch out info s).1 = Some (PathError "open" out e)
  ∧ requests_in (new_events s (doFetch out info s).2) = []
  ∧ files (doFetch out info s).2 = files s.
Proof. intros Ho. doFetch_request_paths s. Qed.

(** Once the file is open, what was in it stays in front of whatever the
    call adds. *)
Lemma doFetch_keeps_prefix (out : string) (info : paramFile) (s : State) :
  faults s SysOpenFile out = None →
  ∃ written,
    files (doFetch out info s).2 !! out
    = Some (default [] (files s !! out) ++ written)%list.
Proof.
  intros Ho. doFetch_paths s; close_path;
    try (by eexists);
    try (by eexists []; rewrite ?app_nil_r).
Qed.

(** With the file open, its size known and the URL accepted, the call
    issues one request: a [GET] for the URL with the size as offset. *)
Lemma doFetch_one_request (out : string) (info : paramFile) (s : State) (u u' : string) :
  faults s SysOpenFile out = None → faults s SysStat out = None →
  url_Parse (gateway_of s +:+ Cid info) = inr u → url_Parse u = inr u' →
  requests_in (new_events s (doFetch out info s).2)
  = [range_request u' (size_of out s)].
Proof. intros Ho Hs Hu Hu'. doFetch_request_paths s. Qed.

(** What the call returns and leaves in the file, by the answer to the
    request. *)
Lemma doFetch_transport_error (out : string) (info : paramFile) (s : State)
    (u u' : string) (err : error) :
  faults s SysOpenFile out = None → faults s SysStat out = None →
  url_Parse (gateway_of s +:+ Cid info) = inr u → url_Parse u = inr u' →
  transport s (range_request u' (size_of out s)) = inl err →
  (doFetch out info s).1 = Some err
  ∧ files (doFetch out info s).2 !! out = Some (default [] (files s !! out)).
Proof. intros Ho Hs Hu Hu' Ht. doFetch_paths s; close_path. Qed.

Lemma doFetch_appends (out : string) (info : paramFile) (s : State)
    (u u' : string) (resp : response) :
  faults s SysOpenFile out = None → faults s SysStat out = None →
  url_Parse (gateway_of s +:+ Cid info) = inr u → url_Parse u = inr u' →
  transport s (range_request u' (size_of out s)) = inr resp →
  body resp = [] ∨ faults s SysWrite out = None →
  (doFetch out info s).1 = body_err resp
  ∧ files (doFetch out info s).2 !! out
    = Some (default [] (files s !! out) ++ body resp)%list.
Proof.
  intros Ho Hs Hu Hu' Ht Hw. doFetch_paths s; close_path;
    rewrite ?app_nil_r; try done; by destruct Hw.
Qed.

Lemma doFetch_write_error (out : string) (info : paramFile) (s : State)
    (u u' : string) (resp : response) (e : errno) :
  faults s SysOpenFile out = None → faults s SysStat out = None →
  url_Parse (gateway_of s +:+ Cid info) = inr u → url_Parse u = inr u' →
  transport s (range_request u' (size_of out s)) = inr resp →
  body resp ≠ [] → faults s SysWrite out = Some e →
  (doFetch out info s).1 = Some (PathError "write" out e)
  ∧ files (doFetch out info s).2 !! out = Some (default [] (files s !! out)).
Proof. intros Ho Hs Hu Hu' Ht Hb Hw. doFetch_paths s; close_path. Qed.

(** *** The goroutine *)

Lemma getParamDir_spec (s : State) :
  ∃ evs,
    getParamDir s = (param_dir s, set_trace (trace s ++ evs) s)
    ∧ requests_in evs = [] ∧ count is_gate_lock evs = 0%nat
    ∧ count is_remove evs = 0%nat ∧ count is_log evs = 0%nat
    ∧ count is_checkFile_call evs = 0%nat
    ∧ count is_doFetch_call evs = 0%nat.
Proof.
  unfold param_dir. by_paths s; flat_trace;
    (eexists; split; [reflexivity | by repeat split]).
Qed.

Lemma requests_in_app (evs1 evs2 : list event) :
  requests_in (evs1 ++ evs2) = (requests_in evs1 ++ requests_in evs2)%list.
Proof. apply omap_app. Qed.

Lemma count_app (p : event → bool) (evs1 evs2 : list event) :
  count p (evs1 ++ evs2) = (count p evs1 + count p evs2)%nat.
Proof. unfold count. by rewrite List.filter_app, length_app. Qed.


Lemma goroutine_check_spec (name : string) (info : paramFile) (s : State) :
  let path := filepath_Join (param_dir s) name in
  let err := (checkFile path info s).1 in
  ∃ s' evs,
    goroutine_check name info s
    = (match err with None => Finished | Some _ => AtGate path end, s')
    ∧ trace s' = (trace s ++ evs)%list
    ∧ requests_in evs = []
    ∧ count is_gate_lock evs = 0%nat
    ∧ count is_remove evs = 0%nat
    ∧ count is_doFetch_call evs = 0%nat
    ∧ count is_checkFile_call evs = 1%nat
    ∧ match err with
      | None => True
      | Some e =>
          if os_IsNotExist err then count is_log evs = 0%nat
          else count is_log evs = 1%nat ∧ last evs = Some (EvLogWarn (Error e))
      end
    ∧ errs (this s') = errs (this s)
    ∧ fetchLk (this s') = fetchLk (this s)
    ∧ wg (this s')
      = match err with None => pred (wg (this s)) | Some _ => wg (this s) end
    ∧ files s' = files s
    ∧ checked s' = checked (checkFile path info s).2.
Proof.
  intros path err. unfold goroutine_check.
  destruct (getParamDir_spec s) as (evs0 & Hdir & Hr0 & Hg0 & Hrm0 & Hl0 & Hc0 & Hf0).
  unfold mbind at 1. unfold M_bind at 1. rewrite Hdir. fold path.
  set (s1 := set_trace _ s).
  destruct (checkFile_frame path info s1) as (He & Hfi & Hfa & Htr & Hth).
  destruct (checkFile_trace path info s1)
    as (evs1 & Ht1 & Hr1 & Hg1 & Hrm1 & Hc1 & Hf1 & Hl1).
  assert (Hres : (checkFile path info s1).1 = err)
    by (by apply checkFile_result_ext).
  assert (Hck : checked (checkFile path info s1).2
                = checked (checkFile path info s).2).
  { rewrite !checkFile_checked, !read_file_spec. done. }
  unfold mbind at 1. unfold M_bind at 1.
  destruct (checkFile path info s1) as [err1 s2]. simpl in *. subst err1.
  subst err. destruct ((checkFile path info s).1) as [e|] eqn:Herr.
  - destruct (os_IsNotExist (Some e)) eqn:Hne; simpl.
    + exists s2, (evs0 ++ evs1)%list. split; [reflexivity |].
      rewrite !requests_in_app, !count_app, Hr0, Hr1, Hg0, Hg1, Hrm0, Hrm1,
        Hc0, Hc1, Hf0, Hf1, Hl0, Hl1, Hth, Hfi, Ht1, app_assoc by done.
      by repeat split.
    + exists (set_trace (trace s2 ++ [EvLogWarn (Error e)]) s2),
        (evs0 ++ evs1 ++ [EvLogWarn (Error e)])%list.
      split; [reflexivity |].
      rewrite !requests_in_app, !count_app, Hr0, Hr1, Hg0, Hg1, Hrm0, Hrm1,
        Hc0, Hc1, Hf0, Hf1, Hl0, Hl1 by done.
      simpl. rewrite Hth, Hfi, Ht1, !app_assoc.
      repeat split; try done. apply last_snoc.
  - simpl.
    exists (set_this {| wg := pred (wg (this s2)); fetchLk := fetchLk (this s2);
                        errs := errs (this s2) |} s2), (evs0 ++ evs1)%list.
    split; [reflexivity |].
    rewrite !requests_in_app, !count_app, Hr0, Hr1, Hg0, Hg1, Hrm0, Hrm1,
      Hc0, Hc1, Hf0, Hf1.
    simpl. rewrite Hth, Hfi, Ht1, app_assoc.
    by repeat split.
Qed.

Lemma goroutine_fetch_spec (path : string) (info : paramFile) (s : State) :
  let r := (doFetch path info s).1 in
  let s1 := (doFetch path info s).2 in
  ∃ s',
    goroutine_fetch path info s
    = (match r with None => AtRecheck path | Some _ => Finished end, s')
    ∧ trace s'
      = (trace s1 ++ match r with Some _ => [EvGateUnlock] | None => [] end)%list
    ∧ errs (this s')
      = (errs (this s)
         ++ match r with
            | Some e => [wrapError ("fetching file " +:+ path +:+ " failed") e]
            | None => []
            end)%list
    ∧ fetchLk (this s')
      = match r with Some _ => false | None => fetchLk (this s) end
    ∧ wg (this s')
      = match r with Some _ => pred (wg (this s)) | None => wg (this s) end
    ∧ files s' = files s1
    ∧ checked s' = checked s.
Proof.
  intros r s1. subst r s1. unfold goroutine_fetch.
  destruct (doFetch_frame path info s) as (He & Hfa & Htr & Hck & Hth).
  unfold mbind at 1. unfold M_bind at 1.
  destruct (doFetch path info s) as [[e|] s1]; simpl in *.
  - eexists. split; [reflexivity |]. simpl. rewrite Hth, Hck. done.
  - eexists. split; [reflexivity |]. rewrite Hth, Hck, app_nil_r, app_nil_r. done.
Qed.

Lemma os_Remove_spec (path : string) (s : State) :
  os_Remove path s
  = match faults s SysRemove path with
    | Some e =>
        (Some (PathError "remove" path e),
         set_trace (trace s ++ [EvRemove path]) s)
    | None =>
        match files s !! path with
        | None =>
            (Some (PathError "remove" path ENOENT),
             set_trace (trace s ++ [EvRemove path]) s)
        | Some _ =>
            (None,
             set_files (delete path (files s))
               (set_trace (trace s ++ [EvRemove path]) s))
        end
    end.
Proof. by_paths s; close_path. Qed.

Lemma goroutine_recheck_spec (path : string) (info : paramFile) (s : State) :
  let r := (checkFile path info s).1 in
  let s1 := (checkFile path info s).2 in
  let rm := (os_Remove path s).1 in
  ∃ s',
    goroutine_recheck path info s = (Finished, s')
    ∧ trace s'
      = (trace s1
         ++ match r with Some _ => [EvRemove path] | None => [] end
         ++ [EvGateUnlock])%list
    ∧ errs (this s')
      = (errs (this s)
         ++ match r with
            | None => []
            | Some e =>
                wrapError ("checking file " +:+ path +:+ " failed") e
                :: match rm with
                   | Some e' =>
                       [wrapError ("remove file " +:+ path +:+ " failed") e']
                   | None => []
                   end
            end)%list
    ∧ fetchLk (this s') = false
    ∧ wg (this s') = pred (wg (this s))
    ∧ files s'
      = match r, rm with
        | Some _, None => delete path (files s)
        | _, _ => files s
        end
    ∧ checked s' = checked s1.
Proof.
  intros r s1 rm. subst r s1 rm. unfold goroutine_recheck.
  destruct (checkFile_frame path info s) as (He & Hfi & Hfa & Htr & Hth).
  unfold mbind at 1. unfold M_bind at 1.
  destruct (checkFile path info s) as [[e|] s1]; simpl in *.
  - unfold mbind at 1. unfold M_bind at 1.
    unfold mbind at 1. unfold M_bind at 1. unfold errs_append at 1.
    unfold mbind at 1. unfold M_bind at 1.
    rewrite !os_Remove_spec. simpl. rewrite Hfa, Hfi.
    destruct (faults s SysRemove path) as [e'|]; simpl;
      [| destruct (files s !! path) as [data|]; simpl ];
      (eexists; split; [reflexivity |]); simpl;
      rewrite Hth, <- ?app_assoc; done.
  - eexists. split; [reflexivity |]. simpl. rewrite Hth, app_nil_r. done.
Qed.

(** A goroutine that has returned takes no further step. *)
Lemma goroutine_step_Finished (g : goroutine) (s : State) :
  goroutine_step (at_pc g Finished) s = None.
Proof. reflexivity. Qed.

Lemma goroutine_step_Spawned (g : goroutine) (s : State) :
  g_pc g = Spawned →
  goroutine_step g s
  = Some (at_pc g (goroutine_check (g_name g) (g_info g) s).1,
          (goroutine_check (g_name g) (g_info g) s).2).
Proof.
  intros Hpc. unfold goroutine_step. rewrite Hpc.
  by destruct (goroutine_check _ _ s).
Qed.

Lemma goroutine_step_AtGate (g : goroutine) (s : State) (path : string) :
  fetchLk (this s) = false →
  goroutine_step (at_pc g (AtGate path)) s
  = Some (at_pc g (AtFetch path), (fetchLk_Lock s).2).
Proof. intros Hlk. unfold goroutine_step. simpl. by rewrite Hlk. Qed.

Lemma goroutine_step_AtFetch (g : goroutine) (s : State) (path : string) :
  g_pc g = AtFetch path →
  goroutine_step g s
  = Some (at_pc g (goroutine_fetch path (g_info g) s).1,
          (goroutine_fetch path (g_info g) s).2).
Proof.
  intros Hpc. unfold goroutine_step. rewrite Hpc.
  by destruct (goroutine_fetch _ _ s).
Qed.

Lemma goroutine_step_AtRecheck (g : goroutine) (s : State) (path : string) :
  g_pc g = AtRecheck path →
  goroutine_step g s
  = Some (at_pc g (goroutine_recheck path (g_info g) s).1,
          (goroutine_recheck path (g_info g) s).2).
Proof.
  intros Hpc. unfold goroutine_step. rewrite Hpc.
  by destruct (goroutine_recheck _ _ s).
Qed.

(** *** Claims about [checkFile] *)

(** C1. On the hashing path (trust bypass off, path not in the cache)
    [checkFile] returns ok exactly when the file can be read to its end and
    the hex encoding of the first 16 bytes of the 64-byte BLAKE2b digest of
    its content is the same string as [info.Digest]; an error of opening or
    reading is returned as it is. *)
Theorem checkFile_hashing_path (path : string) (info : paramFile) (s : State) :
  trust_bypass s = false →
  path ∉ checked s →
  ((checkFile path info s).1 = None
   ↔ ∃ data, read_file path s = inr data
             ∧ hex_EncodeToString (take 16 (blake2b_512 data)) = Digest info)
  ∧ (∀ err, read_file path s = inl err → (checkFile path info s).1 = Some err)
  ∧ (∀ data, length (blake2b_512 data) = 64%nat
             ∧ length (take 16 (blake2b_512 data)) = 16%nat).
Proof.
  intros Ht Hc. rewrite checkFile_result, Ht.
  rewrite bool_decide_eq_false_2 by done.
  split; [| split].
  - destruct (read_file path s) as [err | data].
    + split; [done | by intros (? & ? & ?)].
    + unfold strSum_of.
      destruct (String.eqb_spec
                  (hex_EncodeToString (take 16 (blake2b_512 data)))
                  (Digest info)) as [Heq | Hne].
      * split; [| done]. intros _. by exists data.
      * split; [done |]. intros (d & [= <-] & Hd). done.
  - by intros err ->.
  - intros data. rewrite length_take, blake2b_512_Size. done.
Qed.

(** C9. [checkFile] changes the cache only by adding the verified path, and
    only when the digest of the content matched: whenever it returns an
    error, of mismatch or of input/output, the cache is as it was. *)
Theorem checkFile_cache_mutation (path : string) (info : paramFile) (s : State) :
  (checked (checkFile path info s).2 = checked s
   ∨ checked (checkFile path info s).2 = {[path]} ∪ checked s
     ∧ (checkFile path info s).1 = None
     ∧ ∃ data, read_file path s = inr data
               ∧ hex_EncodeToString (take 16 (blake2b_512 data)) = Digest info)
  ∧ (∀ err, (checkFile path info s).1 = Some err →
       checked (checkFile path info s).2 = checked s).
Proof.
  rewrite checkFile_checked, checkFile_result.
  destruct (trust_bypass s); [by split; [left |] |].
  destruct (bool_decide (path ∈ checked s)); [by split; [left |] |].
  destruct (read_file path s) as [err | data]; [by split; [left |] |].
  destruct (String.eqb_spec (strSum_of data) (Digest info)) as [Heq | Hne].
  - split; [| done]. right. repeat split. by exists data.
  - by split; [left |].
Qed.

(** C10. The comparison string that [checkFile] computes has exactly 32
    characters, all of them in [0-9a-f]; so on the hashing path an entry
    whose digest has another length, or holds an upper-case letter, gets
    the mismatch error whatever the content of the file is. *)
Theorem checkFile_digest_shape (path : string) (info : paramFile) (s : State)
    (data : list byte) :
  (String.length (strSum_of data) = 32%nat
   ∧ all_chars is_lower_hex (strSum_of data) = true)
  ∧ (trust_bypass s = false →
     path ∉ checked s →
     read_file path s = inr data →
     String.length (Digest info) ≠ 32%nat
     ∨ some_char is_upper (Digest info) = true →
     (checkFile path info s).1
     = Some (mismatch_error path (strSum_of data) (Digest info))).
Proof.
  pose proof (strSum_of_shape data) as [Hlen Hhex].
  split; [done |]. intros Ht Hc Hr Hbad.
  rewrite checkFile_result, Ht, Hr.
  rewrite bool_decide_eq_false_2 by done.
  destruct (String.eqb_spec (strSum_of data) (Digest info)) as [Heq | Hne];
    [| done].
  exfalso. rewrite <- Heq in Hbad. destruct Hbad as [Hbad | Hbad].
  - done.
  - apply some_upper_not_all_lower_hex in Hbad. congruence.
Qed.

(** *** Claims about the goroutine *)

(** C3. A goroutine whose pre-download [checkFile] returns ok (by the
    trust bypass, from the cache, or by hashing) returns in that very step:
    it issues no request, does not take [fetchLk], does not call [doFetch],
    records no error and leaves the files alone. *)
Theorem verified_entry_needs_no_fetch (g : goroutine) (s : State) :
  g_pc g = Spawned →
  (checkFile (filepath_Join (param_dir s) (g_name g)) (g_info g) s).1 = None →
  ∃ s',
    goroutine_step g s = Some (at_pc g Finished, s')
    ∧ goroutine_step (at_pc g Finished) s' = None
    ∧ requests_in (new_events s s') = []
    ∧ count is_gate_lock (new_events s s') = 0%nat
    ∧ count is_doFetch_call (new_events s s') = 0%nat
    ∧ errs (this s') = errs (this s)
    ∧ fetchLk (this s') = fetchLk (this s)
    ∧ wg (this s') = pred (wg (this s))
    ∧ files s' = files s.
Proof.
  intros Hpc Hok.
  destruct (goroutine_check_spec (g_name g) (g_info g) s)
    as (s' & evs & Hrun & Htr & Hreq & Hlock & _ & Hfetch & _ & _
        & Herrs & Hlk & Hwg & Hfiles & _).
  rewrite Hok in Hrun, Hwg.
  exists s'. rewrite (goroutine_step_Spawned g s Hpc), Hrun.
  rewrite (new_events_app s s' evs Htr). by repeat split.
Qed.

(** C6. A goroutine whose pre-download [checkFile] fails goes on to the
    download: it records no error; it logs nothing when the failure is
    "file does not exist" and logs the failure as one warning otherwise;
    it waits for [fetchLk], takes it once it is free, and then calls
    [doFetch]. *)
Theorem failed_precheck_goes_to_download (g : goroutine) (s : State) (e : error) :
  g_pc g = Spawned →
  (checkFile (filepath_Join (param_dir s) (g_name g)) (g_info g) s).1 = Some e →
  ∃ s',
    let path := filepath_Join (param_dir s) (g_name g) in
    goroutine_step g s = Some (at_pc g (AtGate path), s')
    ∧ errs (this s') = errs (this s)
    ∧ (if os_IsNotExist (Some e)
       then count is_log (new_events s s') = 0%nat
       else count is_log (new_events s s') = 1%nat
            ∧ last (new_events s s') = Some (EvLogWarn (Error e)))
    ∧ requests_in (new_events s s') = []
    ∧ (∀ s2, fetchLk (this s2) = false →
         goroutine_step (at_pc g (AtGate path)) s2
         = Some (at_pc g (AtFetch path), (fetchLk_Lock s2).2))
    ∧ (∀ s3, ∃ pc' s4,
         goroutine_step (at_pc g (AtFetch path)) s3 = Some (at_pc g pc', s4)
         ∧ count is_doFetch_call (new_events s3 s4) = 1%nat).
Proof.
  intros Hpc Herr.
  destruct (goroutine_check_spec (g_name g) (g_info g) s)
    as (s' & evs & Hrun & Htr & Hreq & _ & _ & _ & _ & Hlog
        & Herrs & _ & _ & _ & _).
  rewrite Herr in Hrun, Hlog.
  exists s'. simpl. rewrite (goroutine_step_Spawned g s Hpc), Hrun.
  rewrite (new_events_app s s' evs Htr).
  repeat split; try done.
  - intros s2 Hfree. by apply goroutine_step_AtGate.
  - intros s3.
    destruct (goroutine_fetch_spec
                (filepath_Join (param_dir s) (g_name g)) (g_info g) s3)
      as (s4 & Hrun4 & Htr4 & _).
    destruct (doFetch_trace
                (filepath_Join (param_dir s) (g_name g)) (g_info g) s3)
      as (evs3 & Htr3 & _ & _ & _ & _ & Hcall).
    eexists _, s4.
    rewrite (goroutine_step_AtFetch (at_pc g _) s3 _ eq_refl). simpl.
    rewrite Hrun4. split; [reflexivity |].
    rewrite Htr3, <- app_assoc in Htr4.
    rewrite (new_events_app s3 s4 _ Htr4), count_app, Hcall.
    by destruct (doFetch _ _ s3).1.
Qed.

(** C5. A goroutine whose [doFetch] fails returns in that step: the one
    call of [doFetch] is the only attempt (at most one request, and the
    goroutine takes no further step), the one error
    "fetching file <path> failed" is appended, [checkFile] is not called
    again and the file is not removed. *)
Theorem failed_download_is_recorded_once (g : goroutine) (s : State)
    (path : string) (e : error) :
  g_pc g = AtFetch path →
  (doFetch path (g_info g) s).1 = Some e →
  ∃ s',
    let err := wrapError ("fetching file " +:+ path +:+ " failed") e in
    goroutine_step g s = Some (at_pc g Finished, s')
    ∧ goroutine_step (at_pc g Finished) s' = None
    ∧ errs (this s') = (errs (this s) ++ [err])%list
    ∧ Error err
      = ("fetching file " +:+ path +:+ " failed") +:+ ": " +:+ Error e
    ∧ count is_doFetch_call (new_events s s') = 1%nat
    ∧ (length (requests_in (new_events s s')) ≤ 1)%nat
    ∧ count is_checkFile_call (new_events s s') = 0%nat
    ∧ count is_remove (new_events s s') = 0%nat
    ∧ files s' = files (doFetch path (g_info g) s).2
    ∧ fetchLk (this s') = false.
Proof.
  intros Hpc Herr.
  destruct (goroutine_fetch_spec path (g_info g) s)
    as (s' & Hrun & Htr & Herrs & Hlk & _ & Hfiles & _).
  destruct (doFetch_trace path (g_info g) s)
    as (evs & Htr1 & Hreq & _ & Hrm & Hck & Hcall).
  rewrite Herr in Hrun, Htr, Herrs, Hlk.
  rewrite Htr1, <- app_assoc in Htr.
  exists s'. simpl. rewrite (goroutine_step_AtFetch g s path Hpc), Hrun.
  rewrite (new_events_app s s' _ Htr), requests_in_app, !count_app.
  rewrite Hcall, Hrm, Hck, length_app. simpl.
  repeat split; try done. lia.
Qed.

(** C4. A goroutine whose [checkFile] after the download fails appends
    the error "checking file <path> failed" and then calls [os.Remove] on
    the file, once; when the removal fails too, the error
    "remove file <path> failed" is appended after it. One or two errors
    are added, and the goroutine returns. *)
Theorem failed_recheck_is_recorded (g : goroutine) (s : State)
    (path : string) (e : error) :
  g_pc g = AtRecheck path →
  (checkFile path (g_info g) s).1 = Some e →
  ∃ s',
    let err := wrapError ("checking file " +:+ path +:+ " failed") e in
    goroutine_step g s = Some (at_pc g Finished, s')
    ∧ Error err
      = ("checking file " +:+ path +:+ " failed") +:+ ": " +:+ Error e
    ∧ count is_remove (new_events s s') = 1%nat
    ∧ EvRemove path ∈ new_events s s'
    ∧ match (os_Remove path s).1 with
      | None =>
          errs (this s') = (errs (this s) ++ [err])%list
          ∧ files s' = delete path (files s)
      | Some e' =>
          errs (this s')
          = (errs (this s)
             ++ [err; wrapError ("remove file " +:+ path +:+ " failed") e'])%list
          ∧ files s' = files s
      end
    ∧ (length (errs (this s)) + 1 ≤ length (errs (this s'))
       ≤ length (errs (this s)) + 2)%nat.
Proof.
  intros Hpc Herr.
  destruct (goroutine_recheck_spec path (g_info g) s)
    as (s' & Hrun & Htr & Herrs & _ & _ & Hfiles & _).
  destruct (checkFile_trace path (g_info g) s)
    as (evs & Htr1 & _ & _ & Hrm & _ & _ & _).
  rewrite Herr in Htr, Herrs, Hfiles.
  rewrite Htr1, <- app_assoc in Htr.
  exists s'. simpl. rewrite (goroutine_step_AtRecheck g s path Hpc), Hrun.
  rewrite (new_events_app s s' _ Htr), !count_app, Hrm.
  rewrite Herrs, Hfiles.
  repeat split; try done.
  - apply elem_of_app. right. by left.
  - by destruct (os_Remove path s).1.
  - rewrite length_app. simpl. lia.
  - rewrite length_app. destruct (os_Remove path s).1; simpl; lia.
Qed.

(** *** Claim about [doFetch] *)

(** Without the file open, its size, or an accepted URL, the call returns
    the error and issues no request. *)
Lemma doFetch_stat_error (out : string) (info : paramFile) (s : State) (e : errno) :
  faults s SysOpenFile out = None → faults s SysStat out = Some e →
  (doFetch out info s).1 = Some (PathError "stat" out e)
  ∧ requests_in (new_events s (doFetch out info s).2) = [].
Proof. intros Ho Hs. doFetch_request_paths s. Qed.

Lemma doFetch_url_error (out : string) (info : paramFile) (s : State) (err : error) :
  faults s SysOpenFile out = None → faults s SysStat out = None →
  url_Parse (gateway_of s +:+ Cid info) = inl err
  ∨ (∃ u, url_Parse (gateway_of s +:+ Cid info) = inr u
          ∧ url_Parse u = inl err) →
  (doFetch out info s).1 = Some err
  ∧ requests_in (new_events s (doFetch out info s).2) = [].
Proof.
  intros Ho Hs [Hu | (u & Hu & Hu')]; doFetch_request_paths s.
Qed.

(** C7 (as amended). Every call of [doFetch] opens [out] for appending,
    creating it when absent, and issues at most one request. When the file
    cannot be opened, its size cannot be read, or the URL is not accepted,
    the call returns that error and issues no request. Otherwise it issues
    exactly one request: a [GET] for the URL that [url.Parse] yields for the
    gateway address immediately followed by [info.Cid], with the header
    [Range: bytes=<size of the file>-]; and when the response arrives and
    its body can be written, the file holds its former content followed by
    the body. In every call that opens the file, the former content stays
    at the front of the file. *)
Theorem doFetch_resumes_download (out : string) (info : paramFile) (s : State) :
  let r := (doFetch out info s).1 in
  let s' := (doFetch out info s).2 in
  let old := default [] (files s !! out) in
  let reqs := requests_in (new_events s s') in
  (length reqs ≤ 1)%nat
  ∧ (∀ e, faults s SysOpenFile out = Some e →
       r = Some (PathError "open" out e) ∧ reqs = [] ∧ files s' = files s)
  ∧ (faults s SysOpenFile out = None →
       ∃ written, files s' !! out = Some (old ++ written)%list)
  ∧ (∀ e, faults s SysOpenFile out = None → faults s SysStat out = Some e →
       r = Some (PathError "stat" out e) ∧ reqs = [])
  ∧ (∀ err, faults s SysOpenFile out = None → faults s SysStat out = None →
       url_Parse (gateway_of s +:+ Cid info) = inl err
       ∨ (∃ u, url_Parse (gateway_of s +:+ Cid info) = inr u
               ∧ url_Parse u = inl err) →
       r = Some err ∧ reqs = [])
  ∧ (∀ u u', faults s SysOpenFile out = None → faults s SysStat out = None →
       url_Parse (gateway_of s +:+ Cid info) = inr u → url_Parse u = inr u' →
       reqs = [range_request u' (size_of out s)]
       ∧ (∀ resp,
            transport s (range_request u' (size_of out s)) = inr resp →
            body resp = [] ∨ faults s SysWrite out = None →
            r = body_err resp
            ∧ files s' !! out = Some (old ++ body resp)%list)).
Proof.
  simpl. refine (conj _ (conj _ (conj _ (conj _ (conj _ _))))).
  - destruct (doFetch_trace out info s) as (evs & Htr & Hreq & _).
    by rewrite (new_events_app _ _ _ Htr).
  - intros e Ho. by apply doFetch_open_error.
  - by apply doFetch_keeps_prefix.
  - intros e Ho Hs. by apply doFetch_stat_error.
  - intros err Ho Hs Hu. by apply doFetch_url_error.
  - intros u u' Ho Hs Hu Hu'. split.
    + by eapply doFetch_one_request.
    + intros resp Hresp Hw. by eapply doFetch_appends.
Qed.

(** *** The gate *)

Lemma gate_holders_cons (g : goroutine) (gs : list goroutine) :
  gate_holders (g :: gs)
  = (Nat.b2n (holds_gate (g_pc g)) + gate_holders gs)%nat.
Proof. unfold gate_holders. simpl. by destruct (holds_gate (g_pc g)). Qed.

Lemma gate_holders_insert (gs : list goroutine) (i : nat) (g g' : goroutine) :
  gs !! i = Some g →
  (gate_holders (<[i:=g']> gs) + Nat.b2n (holds_gate (g_pc g))
   = gate_holders gs + Nat.b2n (holds_gate (g_pc g')))%nat.
Proof.
  revert i. induction gs as [|g0 gs IH]; intros [|i] Hi; simplify_eq/=.
  - rewrite !gate_holders_cons. lia.
  - rewrite !gate_holders_cons. specialize (IH i Hi). lia.
Qed.

Lemma gate_holders_lookup (gs : list goroutine) (i : nat) (g : goroutine) :
  gs !! i = Some g → holds_gate (g_pc g) = true →
  (1 ≤ gate_holders gs)%nat.
Proof.
  revert i. induction gs as [|g0 gs IH]; intros [|i] Hi Hg; simplify_eq/=.
  - rewrite gate_holders_cons, Hg. simpl. lia.
  - rewrite gate_holders_cons. specialize (IH i Hi Hg). lia.
Qed.

Lemma in_flight_le_gate_holders (gs : list goroutine) :
  (in_flight gs ≤ gate_holders gs)%nat.
Proof.
  unfold in_flight, gate_holders.
  induction gs as [|g gs IH]; simpl; [done |].
  destruct (g_pc g); simpl; lia.
Qed.

(** A step changes the number of goroutines behind the gate exactly as it
    changes the mutex. *)
Lemma goroutine_step_gate (g g' : goroutine) (s s' : State) :
  goroutine_step g s = Some (g', s') →
  (holds_gate (g_pc g) = true → fetchLk (this s) = true) →
  (Nat.b2n (fetchLk (this s')) + Nat.b2n (holds_gate (g_pc g))
   = Nat.b2n (fetchLk (this s)) + Nat.b2n (holds_gate (g_pc g')))%nat.
Proof.
  intros Hstep Hheld. destruct (g_pc g) as [| path | path | path |] eqn:Hpc.
  - rewrite (goroutine_step_Spawned g s Hpc) in Hstep.
    destruct (goroutine_check_spec (g_name g) (g_info g) s)
      as (s1 & evs & Hrun & _ & _ & _ & _ & _ & _ & _ & _ & Hlk & _).
    rewrite Hrun in Hstep. simplify_eq/=. rewrite Hlk.
    by destruct (checkFile _ _ s).1.
  - unfold goroutine_step in Hstep. rewrite Hpc in Hstep.
    destruct (fetchLk (this s)) eqn:Hlk; simplify_eq/=. done.
  - rewrite (goroutine_step_AtFetch g s path Hpc) in Hstep.
    destruct (goroutine_fetch_spec path (g_info g) s)
      as (s1 & Hrun & _ & _ & Hlk & _).
    rewrite Hrun in Hstep. simplify_eq/=. rewrite Hlk, (Hheld eq_refl).
    by destruct (doFetch _ _ s).1.
  - rewrite (goroutine_step_AtRecheck g s path Hpc) in Hstep.
    destruct (goroutine_recheck_spec path (g_info g) s)
      as (s1 & Hrun & _ & _ & Hlk & _).
    rewrite Hrun in Hstep. simplify_eq/=. by rewrite Hlk, (Hheld eq_refl).
  - unfold goroutine_step in Hstep. by rewrite Hpc in Hstep.
Qed.

Lemma step_gate_holders (i : nat) (c c' : config) :
  gate_holders (goroutines c) = Nat.b2n (fetchLk (this (st c))) →
  step i c = Some c' →
  gate_holders (goroutines c') = Nat.b2n (fetchLk (this (st c')))
  ∧ length (goroutines c') = length (goroutines c).
Proof.
  intros Hinv Hstep. unfold step in Hstep.
  destruct (goroutines c !! i) as [g|] eqn:Hg; simplify_eq/=.
  destruct (goroutine_step g (st c)) as [[g' s']|] eqn:Hgs; simplify_eq/=.
  split; [| by rewrite length_insert].
  pose proof (gate_holders_insert (goroutines c) i g g' Hg) as Hins.
  assert (holds_gate (g_pc g) = true → fetchLk (this (st c)) = true) as Hheld.
  { intros Hh. pose proof (gate_holders_lookup _ _ _ Hg Hh) as Hge.
    rewrite Hinv in Hge.
    destruct (fetchLk (this (st c))); simpl in Hge; [done | lia]. }
  pose proof (goroutine_step_gate g g' (st c) s' Hgs Hheld). lia.
Qed.

Lemma run_gate_holders (schedule : list nat) (c : config) :
  gate_holders (goroutines c) = Nat.b2n (fetchLk (this (st c))) →
  gate_holders (goroutines (run schedule c))
  = Nat.b2n (fetchLk (this (st (run schedule c))))
  ∧ length (goroutines (run schedule c)) = length (goroutines c).
Proof.
  revert c. induction schedule as [|i schedule IH]; intros c Hinv; [done |].
  unfold run. simpl. fold (run schedule).
  destruct (step i c) as [c'|] eqn:Hstep; simpl; [| by apply IH].
  destruct (step_gate_holders i c c' Hinv Hstep) as [Hinv' Hlen].
  rewrite <- Hlen. by apply IH.
Qed.

(** *** [GetParams] *)

Lemma range_params_spec (storageSize : N) (entries : list (string * paramFile))
    (s : State) :
  let gs := spawned_for <$> List.filter (in_scope storageSize) entries in
  (range_params storageSize entries s).1 = gs
  ∧ wg (this (range_params storageSize entries s).2)
    = (wg (this s) + length gs)%nat
  ∧ fetchLk (this (range_params storageSize entries s).2) = fetchLk (this s)
  ∧ errs (this (range_params storageSize entries s).2) = errs (this s)
  ∧ trace (range_params storageSize entries s).2 = trace s
  ∧ files (range_params storageSize entries s).2 = files s.
Proof.
  revert s. induction entries as [|[name info] entries IH]; intros s; simpl.
  - repeat split; (done || lia).
  - assert (negb (storageSize =? SectorSize info)%N
            && strings_HasSuffix name ".params"
            = negb (in_scope storageSize (name, info))) as ->
      by (unfold in_scope; simpl; by rewrite negb_involutive).
    destruct (in_scope storageSize (name, info)); simpl; [| apply IH].
    + unfold maybeFetchAsync, wg_Add1, mbind, M_bind, mret, M_ret. simpl.
      set (s1 := set_this _ s).
      destruct (IH s1) as (Hgs & Hwg & Hlk & Herrs & Htr & Hfiles).
      destruct (range_params storageSize entries s1) as [gs s2].
      simpl in *. subst gs. rewrite Hwg, Hlk, Herrs, Htr, Hfiles.
      repeat split; (done || lia).
Qed.

Lemma GetParams_spec (paramBytes : list byte) (storageSize : N) (s s0 : State)
    (gs : list goroutine) :
  GetParams paramBytes storageSize s = (inr gs, s0) →
  ∃ params evs,
    json_Unmarshal paramBytes = inr params
    ∧ gs = spawned_for <$> List.filter (in_scope storageSize) (map_to_list params)
    ∧ this s0 = {| wg := length gs; fetchLk := false; errs := [] |}
    ∧ files s0 = files s
    ∧ trace s0 = (trace s ++ evs)%list
    ∧ requests_in evs = []
    ∧ count is_checkFile_call evs = 0%nat
    ∧ count is_doFetch_call evs = 0%nat.
Proof.
  unfold GetParams. intros Hrun.
  destruct (getParamDir_spec s) as (evs0 & Hdir & Hr0 & _ & _ & _ & Hc0 & Hf0).
  unfold mbind at 1 in Hrun. unfold M_bind at 1 in Hrun. rewrite Hdir in Hrun.
  set (s1 := set_trace _ s) in Hrun.
  assert (∀ s2, files s2 = files s →
            trace s2 = (trace s ++ evs0 ++ [EvMkdir (param_dir s)])%list →
            GetParams_spawn paramBytes storageSize s2 = (inr gs, s0) →
            ∃ params evs,
              json_Unmarshal paramBytes = inr params
              ∧ gs = spawned_for
                     <$> List.filter (in_scope storageSize) (map_to_list params)
              ∧ this s0 = {| wg := length gs; fetchLk := false; errs := [] |}
              ∧ files s0 = files s
              ∧ trace s0 = (trace s ++ evs)%list
              ∧ requests_in evs = []
              ∧ count is_checkFile_call evs = 0%nat
              ∧ count is_doFetch_call evs = 0%nat) as Hspawn.
  { intros s2 Hfiles Htrace Hsp. unfold GetParams_spawn in Hsp.
    destruct (json_Unmarshal paramBytes) as [err | params]; [done |].
    unfold new_fetch, mbind, M_bind, mret, M_ret in Hsp.
    set (s3 := set_this _ s2) in Hsp.
    destruct (range_params_spec storageSize (map_to_list params) s3)
      as (Hgs & Hwg & Hlk & Herrs & Htr & Hfi).
    destruct (range_params storageSize (map_to_list params) s3) as [gs' s4].
    simplify_eq/=.
    exists params, (evs0 ++ [EvMkdir (param_dir s)])%list.
    rewrite requests_in_app, !count_app, Hr0, Hc0, Hf0, Htr, Htrace, Hfi, Hfiles.
    repeat split; try done.
    destruct (this s0) as [w l e]. simpl in *. by subst. }
  unfold os_Mkdir, call, emit, mbind, M_bind in Hrun. simpl in Hrun.
  destruct (faults s SysMkdir (param_dir s)) as [e|]; simpl in Hrun.
  - destruct e; simpl in Hrun; try done.
    eapply Hspawn; [| | exact Hrun]; simpl; [done | by rewrite <- app_assoc].
  - eapply Hspawn; [| | exact Hrun]; simpl; [done | by rewrite <- app_assoc].
Qed.

(** Steps never change the entry a goroutine works on. *)
Lemma goroutine_step_entry (g g' : goroutine) (s s' : State) :
  goroutine_step g s = Some (g', s') →
  g_name g' = g_name g ∧ g_info g' = g_info g.
Proof.
  unfold goroutine_step. intros Hstep.
  destruct (g_pc g); try destruct (fetchLk (this s)); simplify_eq/=;
    repeat match goal with
           | H : (let '(_, _) := ?m in _) = _ |- _ => destruct m
           end; by simplify_eq/=.
Qed.

Lemma run_entries (schedule : list nat) (c : config) (g : goroutine) :
  g ∈ goroutines (run schedule c) →
  ∃ g0, g0 ∈ goroutines c ∧ g_name g = g_name g0 ∧ g_info g = g_info g0.
Proof.
  revert c. induction schedule as [|i schedule IH]; intros c Hg.
  - by exists g.
  - unfold run in Hg. simpl in Hg. fold (run schedule) in Hg.
    destruct (step i c) as [c'|] eqn:Hstep; simpl in Hg; [| by apply IH].
    destruct (IH c' Hg) as (g1 & Hg1 & Hn & Hi).
    unfold step in Hstep.
    destruct (goroutines c !! i) as [gi|] eqn:Hgi; simplify_eq/=.
    destruct (goroutine_step gi (st c)) as [[gi' s']|] eqn:Hgs; simplify_eq/=.
    apply list_elem_of_lookup in Hg1 as [j Hj].
    destruct (decide (i = j)) as [-> | Hne].
    + rewrite list_lookup_insert_eq in Hj
        by (by apply lookup_lt_Some in Hgi).
      simplify_eq. destruct (goroutine_step_entry _ _ _ _ Hgs) as [Hn' Hi'].
      exists gi. split; [by eapply list_elem_of_lookup_2 | split; congruence].
    + rewrite list_lookup_insert_ne in Hj by done.
      exists g1. split; [by eapply list_elem_of_lookup_2 | done].
Qed.

Lemma elem_of_spawned (storageSize : N) (entries : list (string * paramFile))
    (g : goroutine) :
  g ∈ spawned_for <$> List.filter (in_scope storageSize) entries
  ↔ ∃ entry, g = spawned_for entry ∧ entry ∈ entries
             ∧ in_scope storageSize entry = true.
Proof.
  rewrite list_elem_of_fmap. split; intros (entry & -> & Hin); exists entry.
  - apply list_elem_of_In, List.filter_In in Hin as [Hin Hsc].
    by rewrite list_elem_of_In.
  - split; [done |]. apply list_elem_of_In, List.filter_In.
    by rewrite <- list_elem_of_In.
Qed.

(** C2. An entry of the manifest whose name ends in ".params" and whose
    [SectorSize] differs from the requested size gets no goroutine, neither
    when [GetParams] starts its goroutines nor later in the run; since only
    goroutines call [checkFile] and [doFetch] and append to [errs], nothing
    is verified, fetched or reported for it. An entry whose name lacks the
    suffix gets its goroutine whatever its [SectorSize] is. The loop itself
    verifies nothing, fetches nothing and records no error. *)
Theorem out_of_scope_entries_are_skipped (paramBytes : list byte)
    (storageSize : N) (params : gmap string paramFile) (s s0 : State)
    (gs : list goroutine) :
  json_Unmarshal paramBytes = inr params →
  GetParams paramBytes storageSize s = (inr gs, s0) →
  (∀ name info, params !! name = Some info →
     (strings_HasSuffix name ".params" = true →
      SectorSize info ≠ storageSize →
      ∀ schedule g,
        g ∈ goroutines (run schedule {| st := s0; goroutines := gs |}) →
        g_name g ≠ name)
     ∧ (strings_HasSuffix name ".params" = false →
        spawned_for (name, info) ∈ gs)
     ∧ (SectorSize info = storageSize → spawned_for (name, info) ∈ gs))
  ∧ errs (this s0) = []
  ∧ requests_in (new_events s s0) = []
  ∧ count is_checkFile_call (new_events s s0) = 0%nat
  ∧ count is_doFetch_call (new_events s s0) = 0%nat.
Proof.
  intros Hjson Hrun.
  destruct (GetParams_spec _ _ _ _ _ Hrun)
    as (params' & evs & Hjson' & Hgs & Hthis & _ & Htr & Hreq & Hck & Hdf).
  rewrite Hjson in Hjson'. simplify_eq.
  rewrite (new_events_app _ _ _ Htr), Hthis.
  split; [| done]. intros name info Hentry. split; [| split].
  - intros Hsuffix Hsize schedule g Hg Hname.
    apply run_entries in Hg as (g0 & Hg0 & Hn & _). simpl in Hg0.
    apply elem_of_spawned in Hg0 as ([name0 info0] & -> & Hin & Hsc).
    apply elem_of_map_to_list in Hin. simpl in *. subst name0.
    rewrite Hname in Hin, Hsc. simplify_eq.
    unfold in_scope in Hsc. simpl in Hsc. rewrite Hsuffix in Hsc.
    rewrite andb_true_r, negb_involutive in Hsc.
    apply N.eqb_eq in Hsc. done.
  - intros Hsuffix. apply elem_of_spawned. exists (name, info).
    split; [done |]. split; [by apply elem_of_map_to_list |].
    unfold in_scope. simpl. by rewrite Hsuffix, andb_false_r.
  - intros Hsize. apply elem_of_spawned. exists (name, info).
    split; [done |]. split; [by apply elem_of_map_to_list |].
    unfold in_scope. simpl. by rewrite Hsize, N.eqb_refl.
Qed.

(** C8. In every configuration that a run of the goroutines of one
    [GetParams] call reaches, whatever the number of goroutines and
    whatever the schedule, at most one goroutine is inside [doFetch], at
    most one is inside the section guarded by [fetchLk] (download and
    re-check), and there is one exactly when the mutex is held. *)
Theorem downloads_are_serialized (paramBytes : list byte) (storageSize : N)
    (s s0 : State) (gs : list goroutine) (schedule : list nat) :
  GetParams paramBytes storageSize s = (inr gs, s0) →
  let c := run schedule {| st := s0; goroutines := gs |} in
  (in_flight (goroutines c) ≤ 1)%nat
  ∧ (gate_holders (goroutines c) ≤ 1)%nat
  ∧ gate_holders (goroutines c) = Nat.b2n (fetchLk (this (st c)))
  ∧ length (goroutines c) = length gs.
Proof.
  intros Hrun c.
  destruct (GetParams_spec _ _ _ _ _ Hrun)
    as (params & evs & _ & Hgs & Hthis & _).
  assert (gate_holders gs = 0%nat) as Hnone.
  { rewrite Hgs. unfold gate_holders.
    generalize (List.filter (in_scope storageSize) (map_to_list params)).
    intros l. induction l; simpl; done. }
  destruct (run_gate_holders schedule {| st := s0; goroutines := gs |})
    as [Hinv Hlen].
  { simpl. by rewrite Hnone, Hthis. }
  fold c in Hinv, Hlen.
  pose proof (in_flight_le_gate_holders (goroutines c)) as Hle.
  repeat split; try done;
    rewrite Hinv in *; destruct (fetchLk (this (st c))); simpl in *; lia.
Qed.

End Program.

(** ** The properties on the sample inputs *)

Lemma pad_512_Size (data : list byte) : length (pad_512 data) = 64%nat.
Proof.
  unfold pad_512. rewrite length_take, length_app, length_replicate. lia.
Qed.

Lemma checkFile_hashing_path_witness :
  trust_bypass st_present = false
  ∧ (vk_path ∉ checked st_present)
  ∧ (checkFile pad_512 vk_path vk_info st_present).1 = None.
Proof.
  split; [reflexivity |]. split; [apply not_elem_of_empty |].
  apply (checkFile_hashing_path pad_512 pad_512_Size vk_path vk_info st_present);
    [reflexivity | apply not_elem_of_empty |].
  exists vk_content. split; vm_compute; reflexivity.
Defined.

Lemma checkFile_digest_shape_witness :
  (String.length (strSum_of pad_512 vk_content) = 32%nat
   ∧ all_chars is_lower_hex (strSum_of pad_512 vk_content) = true)
  ∧ (checkFile pad_512 vk_path vk_info_upper st_present).1
    = Some (mismatch_error vk_path (strSum_of pad_512 vk_content)
              (Digest vk_info_upper)).
Proof.
  destruct (checkFile_digest_shape pad_512 pad_512_Size vk_path vk_info_upper
              st_present vk_content) as [Hshape Hmismatch].
  split; [exact Hshape |].
  apply Hmismatch;
    [reflexivity | apply not_elem_of_empty | reflexivity | right; reflexivity].
Defined.

Lemma verified_entry_needs_no_fetch_witness :
  ∃ s',
    goroutine_step pad_512 join_plain url_plain (vk_goroutine Spawned) st_present
    = Some (vk_goroutine Finished, s')
    ∧ requests_in (new_events st_present s') = []
    ∧ errs (this s') = [].
Proof.
  destruct (verified_entry_needs_no_fetch pad_512 join_plain url_plain
              (vk_goroutine Spawned) st_present)
    as (s' & Hstep & _ & Hreq & _ & _ & Herrs & _);
    [reflexivity | vm_compute; reflexivity |].
  exists s'. split; [exact Hstep |]. split; [exact Hreq | exact Herrs].
Defined.

Lemma failed_precheck_goes_to_download_witness :
  ∃ s',
    goroutine_step pad_512 join_plain url_plain (vk_goroutine Spawned) st_absent
    = Some (vk_goroutine (AtGate vk_path), s')
    ∧ errs (this s') = []
    ∧ count is_log (new_events st_absent s') = 0%nat.
Proof.
  destruct (failed_precheck_goes_to_download pad_512 join_plain url_plain
              (vk_goroutine Spawned) st_absent
              (PathError "open" vk_path ENOENT))
    as (s' & Hstep & Herrs & Hlog & _);
    [reflexivity | vm_compute; reflexivity |].
  exists s'. split; [exact Hstep |]. split; [exact Herrs | exact Hlog].
Defined.

Lemma failed_download_is_recorded_once_witness :
  ∃ s',
    goroutine_step pad_512 join_plain url_plain (vk_goroutine (AtFetch vk_path))
      st_offline
    = Some (vk_goroutine Finished, s')
    ∧ errs (this s')
      = [wrapError ("fetching file " +:+ vk_path +:+ " failed")
           (errorString "dial tcp: connect: connection refused")]
    ∧ count is_doFetch_call (new_events st_offline s') = 1%nat.
Proof.
  destruct (failed_download_is_recorded_once pad_512 join_plain url_plain
              (vk_goroutine (AtFetch vk_path)) st_offline vk_path
              (errorString "dial tcp: connect: connection refused"))
    as (s' & Hstep & _ & Herrs & _ & Hcall & _);
    [reflexivity | vm_compute; reflexivity |].
  exists s'. split; [exact Hstep |]. split; [exact Herrs | exact Hcall].
Defined.

Lemma failed_recheck_is_recorded_witness :
  ∃ s',
    goroutine_step pad_512 join_plain url_plain
      (vk_goroutine (AtRecheck vk_path)) st_corrupt
    = Some (vk_goroutine Finished, s')
    ∧ length (errs (this s')) = 2%nat
    ∧ files s' = files st_corrupt.
Proof.
  destruct (failed_recheck_is_recorded pad_512 join_plain url_plain
              (vk_goroutine (AtRecheck vk_path)) st_corrupt vk_path
              (mismatch_error vk_path (strSum_of pad_512 [x78; x79; x7a])
                 vk_digest))
    as (s' & Hstep & _ & _ & _ & [Herrs Hfiles] & _);
    [reflexivity | vm_compute; reflexivity |].
  exists s'. split; [exact Hstep |]. split; [| exact Hfiles].
  rewrite Herrs. reflexivity.
Defined.

Lemma doFetch_resumes_download_witness :
  requests_in (new_events st_partial (doFetch url_plain vk_path vk_info st_partial).2)
  = [range_request (gateway +:+ "Qm1") 1]
  ∧ (doFetch url_plain vk_path vk_info st_partial).1 = None
  ∧ files (doFetch url_plain vk_path vk_info st_partial).2 !! vk_path
    = Some [x61; x62; x63].
Proof.
  destruct (doFetch_resumes_download url_plain vk_path vk_info st_partial)
    as (_ & _ & _ & _ & _ & Hfetch).
  destruct (Hfetch (gateway +:+ "Qm1") (gateway +:+ "Qm1"))
    as [Hreq Hbody]; [reflexivity | reflexivity | reflexivity | reflexivity |].
  split; [exact Hreq |].
  apply (Hbody {| ContentLength := 2; body := [x62; x63]; body_err := None |});
    [reflexivity | right; reflexivity].
Defined.

Lemma doFetch_every_call_counterexample :
  requests_in (new_events st_readonly (doFetch url_plain vk_path vk_info st_readonly).2)
  = []
  ∧ requests_in (new_events st_gateway (doFetch url_plain vk_path vk_info st_gateway).2)
    = [range_request "http://127.0.0.1:8080/ipfsQm1" 3]
  ∧ "http://127.0.0.1:8080/ipfsQm1"
    ≠ gateway_of st_gateway +:+ "/" +:+ Cid vk_info.
Proof.
  split; [vm_compute; reflexivity |]. split; [vm_compute; reflexivity |].
  vm_compute. discriminate.
Qed.

Lemma out_of_scope_entries_are_skipped_witness :
  let s0 := (GetParams unmarshal_sample sample_manifest_bytes 4096 st_absent).2 in
  (∀ schedule g,
     g ∈ goroutines (run pad_512 join_plain url_plain schedule
                       {| st := s0; goroutines := [vk_goroutine Spawned] |}) →
     g_name g ≠ "b.params")
  ∧ spawned_for ("a.vk", vk_info) ∈ [vk_goroutine Spawned].
Proof.
  intros s0.
  destruct (out_of_scope_entries_are_skipped pad_512 join_plain url_plain
              unmarshal_sample sample_manifest_bytes 4096 sample_manifest
              st_absent s0 [vk_goroutine Spawned])
    as [Hentries _]; [vm_compute; reflexivity | vm_compute; reflexivity |].
  split.
  - destruct (Hentries "b.params" params_info) as (Hskip & _);
      [vm_compute; reflexivity |].
    apply Hskip; [reflexivity | discriminate].
  - destruct (Hentries "a.vk" vk_info) as (_ & Hvk & _);
      [vm_compute; reflexivity |].
    apply Hvk. reflexivity.
Defined.

Lemma downloads_are_serialized_witness :
  let start := GetParams unmarshal_sample sample_manifest_bytes 2048 st_absent in
  let gs := match start.1 with inr gs => gs | inl _ => [] end in
  let c := run pad_512 join_plain url_plain [0; 1; 0; 1; 1]%nat
             {| st := start.2; goroutines := gs |} in
  length gs = 2%nat
  ∧ (in_flight (goroutines c) ≤ 1)%nat
  ∧ gate_holders (goroutines c) = 1%nat.
Proof.
  intros start gs c.
  destruct (downloads_are_serialized pad_512 join_plain url_plain
              unmarshal_sample sample_manifest_bytes 2048 st_absent start.2 gs
              [0; 1; 0; 1; 1]%nat)
    as (Hflight & _); [vm_compute; reflexivity |].
  split; [vm_compute; reflexivity |].
  split; [exact Hflight | vm_compute; reflexivity].
Defined.

Example run_fetches_missing_file :
  let start := GetParams unmarshal_sample sample_manifest_bytes 4096 st_absent in
  let c := run pad_512 join_plain url_plain [0; 0; 0; 0]%nat
             {| st := start.2; goroutines := [vk_goroutine Spawned] |} in
  start.1 = inr [vk_goroutine Spawned]
  ∧ goroutines c = [vk_goroutine Finished]
  ∧ fst <$> wait false WaitChan (st c) = Some None
  ∧ files (st c) !! vk_path = Some vk_content
  ∧ length (requests_in (trace (st c))) = 1%nat.
Proof. vm_compute. repeat split; reflexivity. Qed.

Example run_reports_corrupt_download :
  let start := GetParams unmarshal_sample sample_manifest_bytes 4096 st_wrong in
  let c := run pad_512 join_plain url_plain [0; 0; 0; 0]%nat
             {| st := start.2; goroutines := [vk_goroutine Spawned] |} in
  goroutines c = [vk_goroutine Finished]
  ∧ fst <$> wait false WaitChan (st c)
    = Some (Some (wrapError ("checking file " +:+ vk_path +:+ " failed")
                    (mismatch_error vk_path "78797a00000000000000000000000000"
                       vk_digest)))
  ∧ files (st c) !! vk_path = None.
Proof. vm_compute. repeat split; reflexivity. Qed.
